(** * Code executor (modal-app/app.py): a shallow embedding and its properties

    The service receives a JSON payload [{language, code, stdin}], writes the
    code to a temporary file, optionally compiles it, runs it as a child
    process under CPU, memory and wall-clock bounds, and returns the captured
    and truncated output.

    The embedding follows app.py function by function.  Stateful code is a
    state-and-exception monad over the worker's [World] (files on disk and
    the resource limits of the worker process) that also emits the list of
    operating-system events of the call.  The behaviour of the toolchain and
    of the submitted program is not known to the service: it is the [child]
    field of a [Host], over which every theorem is quantified. *)

From Stdlib Require Import ZArith String Ascii List Lia DecimalString DecimalZ.
From stdpp Require Import gmap strings list.

Local Open Scope Z_scope.

(** ** Python strings and integers *)

(** [len(text)] is a Python int. *)
Definition len (text : string) : Z := Z.of_nat (String.length text).

(** [text[:stop]]: a negative [stop] counts from the end, and both ends are
    clipped to the string. *)
Definition slice_to (text : string) (stop : Z) : string :=
  let stop' := if stop <? 0 then Z.max 0 (len text + stop) else Z.min stop (len text) in
  substring 0 (Z.to_nat stop') text.

(** [str(n)] of a Python int, as an f-string formats it: decimal digits, a
    leading minus sign for negative numbers. *)
Definition str_int (n : Z) : string := NilZero.string_of_int (Z.to_int n).

(** The inverse reading of a decimal numeral, used to say what a printed
    number states. *)
Definition int_of_str (s : string) : option Z :=
  Z.of_int <$> NilZero.int_of_string s.

Definition newline : string := String (ascii_of_nat 10) EmptyString.

(** ** Constants (app.py, lines 12-14) *)

Definition MAX_OUTPUT_LENGTH : Z := 10000.
Definition MAX_CPU_SECONDS : Z := 2.
Definition MAX_MEMORY_MB : Z := 256.

(** ** truncate_output (app.py, lines 24-28) *)

Definition truncate_output (text : string) (max_len : Z) : string :=
  if len text >? max_len then
    slice_to text max_len
      +:+ newline +:+ "... (truncated, " +:+ str_int (len text - max_len)
      +:+ " more characters)"
  else text.

(** ** Values of the JSON payload

    The request carries strings; a key may also be absent or hold [null].
    Numbers, arrays and objects are not modelled. *)

Inductive pyval : Type :=
| PyNone
| PyStr (s : string).

#[global] Instance pyval_eq_dec : EqDecision pyval.
Proof. solve_decision. Defined.

(** [f"{v}"] *)
Definition py_str (v : pyval) : string :=
  match v with
  | PyNone => "None"
  | PyStr s => s
  end.

(** Truth value of [v] in [v if v else None]: [None] and the empty string
    are false. *)
Definition truthy (v : pyval) : bool :=
  match v with
  | PyNone => false
  | PyStr s => negb (String.eqb s "")
  end.

(** ** The worker's world *)

Inductive resource : Type := RLIMIT_CPU | RLIMIT_AS.

(** [resource.RLIM_INFINITY] *)
Definition RLIM_INFINITY : Z := -1.

(** The limit table of one process: a (soft, hard) pair per resource. *)
Record rlimits : Type := mk_rlimits {
  rlimit_cpu : Z * Z;
  rlimit_as : Z * Z
}.

Definition unlimited : rlimits :=
  {| rlimit_cpu := (RLIM_INFINITY, RLIM_INFINITY);
     rlimit_as := (RLIM_INFINITY, RLIM_INFINITY) |}.

Definition set_limit (r : resource) (v : Z * Z) (l : rlimits) : rlimits :=
  match r with
  | RLIMIT_CPU => {| rlimit_cpu := v; rlimit_as := rlimit_as l |}
  | RLIMIT_AS => {| rlimit_cpu := rlimit_cpu l; rlimit_as := v |}
  end.

(** Files on disk (path to contents) and the limit table of the worker
    process itself. *)
Record World : Type := mk_World {
  files : gmap string string;
  limits : rlimits
}.

(** [subprocess.CompletedProcess] with [capture_output=True, text=True]. *)
Record CompletedProcess : Type := mk_CompletedProcess {
  stdout : string;
  stderr : string;
  returncode : Z
}.

(** How a child process ends, as [subprocess.run] sees it. *)
Inductive child_end : Type :=
| Exited (p : CompletedProcess)   (* the child exited within the timeout *)
| Overran                         (* the timeout elapsed; the child was killed *)
| NotStarted.                     (* the program could not be executed *)

Inductive exn : Type :=
| TimeoutExpired (cmd : list string) (timeout : Z)
| TypeError
| FileNotFoundError (path : string)
| OSError.

(** A child process as [subprocess.run] starts it and sees it end.  The
    child inherits the limit table of the process that spawns it. *)
Record spawned : Type := mk_spawned {
  sp_cmd : list string;
  sp_input : option string;
  sp_timeout : Z;
  sp_limits : rlimits;
  sp_end : child_end
}.

(** Operating-system events of a call, in the order they happen. *)
Inductive event : Type :=
| EvSetrlimit (r : resource) (v : Z * Z)
| EvCreate (path : string)
| EvWrite (path : string) (data : string)
| EvSpawn (sp : spawned)
| EvExists (path : string) (found : bool)
| EvUnlink (path : string).

(** What the service does not control: the interpreter path, the names
    [tempfile] picks, and what a child process does.  A child is started
    with a command line, an optional input and a timeout; it inherits the
    limits of the process that spawns it, sees the files on disk, and may
    change them. *)
Record Host : Type := mk_Host {
  sys_executable : string;
  tmpname : gmap string string → string;
  child : list string → option string → Z → rlimits → gmap string string →
          child_end * gmap string string
}.

(** ** The monad: state, exceptions, and the events emitted *)

Inductive outcome (A : Type) : Type :=
| Return (a : A)
| Raise (e : exn).
Arguments Return {A} a.
Arguments Raise {A} e.

Definition M (A : Type) : Type := World → outcome A * World * list event.

Definition ret {A} (a : A) : M A := λ w, (Return a, w, []).

Definition bind {A B} (m : M A) (k : A → M B) : M B :=
  λ w, match m w with
       | (Return a, w1, t1) =>
           match k a w1 with
           | (r, w2, t2) => (r, w2, t1 ++ t2)
           end
       | (Raise e, w1, t1) => (Raise e, w1, t1)
       end.

(** [try: body finally: handler].  The handler always runs; if it raises,
    its exception replaces the outcome of the body. *)
Definition try_finally {A} (body : M A) (handler : M unit) : M A :=
  λ w, match body w with
       | (r, w1, t1) =>
           match handler w1 with
           | (Return _, w2, t2) => (r, w2, t1 ++ t2)
           | (Raise e, w2, t2) => (Raise e, w2, t1 ++ t2)
           end
       end.

Declare Scope py_scope.
Delimit Scope py_scope with py.
Notation "x <- c1 ;; c2" := (bind c1 (λ x, c2))
  (at level 100, c1 at next level, right associativity) : py_scope.
Notation "c1 ;; c2" := (bind c1 (λ _, c2))
  (at level 100, right associativity) : py_scope.
Local Open Scope py_scope.

(** [if b: m] *)
Definition when (b : bool) (m : M unit) : M unit := if b then m else ret tt.

(** *** Library calls *)

(** [resource.setrlimit(r, (soft, hard))]: acts on the calling process.
    The worker is taken to be allowed to set its limits; a refusal by the
    kernel is not modelled. *)
Definition setrlimit (r : resource) (v : Z * Z) : M unit :=
  λ w, (Return tt,
        {| files := files w; limits := set_limit r v (limits w) |},
        [EvSetrlimit r v]).

(** [with tempfile.NamedTemporaryFile("w", suffix=suffix, delete=False) as f:
       f.write(code); path = f.name]
    The file exists from the moment it is opened.  [f.write] accepts only a
    [str]; when it raises, the [with] block closes the file and, since
    [delete=False], leaves it on disk. *)
Definition NamedTemporaryFile (host : Host) (suffix : string) (code : pyval)
  : M string :=
  λ w, let path := tmpname host (files w) +:+ suffix in
       match code with
       | PyStr s =>
           (Return path,
            {| files := <[path := s]> (files w); limits := limits w |},
            [EvCreate path; EvWrite path s])
       | PyNone =>
           (Raise TypeError,
            {| files := <[path := ""]> (files w); limits := limits w |},
            [EvCreate path])
       end.

(** What [subprocess.run] hands back for each way a child ends: the
    completed process, [TimeoutExpired] after killing the child, or the
    error of a failed [exec]. *)
Definition run_outcome (cmd : list string) (timeout : Z) (e : child_end)
  : outcome CompletedProcess :=
  match e with
  | Exited p => Return p
  | Overran => Raise (TimeoutExpired cmd timeout)
  | NotStarted => Raise OSError
  end.

(** [subprocess.run(cmd, capture_output=True, text=True, timeout=timeout,
    input=input)] *)
Definition subprocess_run (host : Host) (cmd : list string) (timeout : Z)
    (input : option string) : M CompletedProcess :=
  λ w, match child host cmd input timeout (limits w) (files w) with
       | (e, fs) =>
           (run_outcome cmd timeout e,
            {| files := fs; limits := limits w |},
            [EvSpawn {| sp_cmd := cmd; sp_input := input;
                        sp_timeout := timeout; sp_limits := limits w;
                        sp_end := e |}])
       end.

(** [os.path.exists(path)] *)
Definition os_path_exists (path : string) : M bool :=
  λ w, let found := bool_decide (is_Some (files w !! path)) in
       (Return found, w, [EvExists path found]).

(** [os.unlink(path)] *)
Definition os_unlink (path : string) : M unit :=
  λ w, match files w !! path with
       | Some _ =>
           (Return tt,
            {| files := delete path (files w); limits := limits w |},
            [EvUnlink path])
       | None => (Raise (FileNotFoundError path), w, [EvUnlink path])
       end.

(** ** set_resource_limits (app.py, lines 16-22) *)

Definition set_resource_limits : M unit :=
  setrlimit RLIMIT_CPU (MAX_CPU_SECONDS, MAX_CPU_SECONDS) ;;
  let memory_bytes := MAX_MEMORY_MB * 1024 * 1024 in
  setrlimit RLIMIT_AS (memory_bytes, memory_bytes).

(** ** The result dictionary [{"output": .., "error": .., "success": ..}] *)

Record ExecutionResult : Type := mk_ExecutionResult {
  output : string;
  error : string;
  success : bool
}.

(** [stdin if stdin else None] *)
Definition input_of (stdin : pyval) : option string :=
  match stdin with
  | PyStr s => if truthy stdin then Some s else None
  | PyNone => None
  end.

Section Pipelines.

Variable host : Host.

(** ** run_python (app.py, lines 38-60) *)

Definition run_python (code stdin : pyval) : M ExecutionResult :=
  set_resource_limits ;;
  path <- NamedTemporaryFile host ".py" code ;;
  result <- try_finally
              (subprocess_run host [sys_executable host; path] 25
                 (input_of stdin))
              (os_unlink path) ;;
  ret {| output := truncate_output (stdout result) MAX_OUTPUT_LENGTH;
         error := truncate_output (stderr result) MAX_OUTPUT_LENGTH;
         success := returncode result =? 0 |}.

(** ** run_js (app.py, lines 64-86) *)

Definition run_js (code stdin : pyval) : M ExecutionResult :=
  set_resource_limits ;;
  path <- NamedTemporaryFile host ".js" code ;;
  result <- try_finally
              (subprocess_run host ["node"; path] 25 (input_of stdin))
              (os_unlink path) ;;
  ret {| output := truncate_output (stdout result) MAX_OUTPUT_LENGTH;
         error := truncate_output (stderr result) MAX_OUTPUT_LENGTH;
         success := returncode result =? 0 |}.

(** ** run_c (app.py, lines 90-131) *)

Definition run_c (code stdin : pyval) : M ExecutionResult :=
  set_resource_limits ;;
  src <- NamedTemporaryFile host ".c" code ;;
  let exe := src +:+ ".out" in
  try_finally
    (compile_res <- subprocess_run host ["gcc"; src; "-O2"; "-o"; exe] 20 None ;;
     if negb (returncode compile_res =? 0) then
       ret {| output := "";
              error := truncate_output (stderr compile_res) MAX_OUTPUT_LENGTH;
              success := false |}
     else
       run_res <- subprocess_run host [exe] 20 (input_of stdin) ;;
       ret {| output := truncate_output (stdout run_res) MAX_OUTPUT_LENGTH;
              error := truncate_output (stderr run_res) MAX_OUTPUT_LENGTH;
              success := returncode run_res =? 0 |})
    (src_found <- os_path_exists src ;;
     when src_found (os_unlink src) ;;
     exe_found <- os_path_exists exe ;;
     when exe_found (os_unlink exe)).

(** ** run_cpp (app.py, lines 135-176) *)

Definition run_cpp (code stdin : pyval) : M ExecutionResult :=
  set_resource_limits ;;
  src <- NamedTemporaryFile host ".cpp" code ;;
  let exe := src +:+ ".out" in
  try_finally
    (compile_res <- subprocess_run host ["g++"; src; "-O2"; "-o"; exe] 20 None ;;
     if negb (returncode compile_res =? 0) then
       ret {| output := "";
              error := truncate_output (stderr compile_res) MAX_OUTPUT_LENGTH;
              success := false |}
     else
       run_res <- subprocess_run host [exe] 20 (input_of stdin) ;;
       ret {| output := truncate_output (stdout run_res) MAX_OUTPUT_LENGTH;
              error := truncate_output (stderr run_res) MAX_OUTPUT_LENGTH;
              success := returncode run_res =? 0 |})
    (src_found <- os_path_exists src ;;
     when src_found (os_unlink src) ;;
     exe_found <- os_path_exists exe ;;
     when exe_found (os_unlink exe)).

(** ** execute (app.py, lines 181-195)

    [f.remote(code, stdin)] runs [f] on a worker and hands its return value,
    or the exception it raised, back to the caller. *)

(** [payload.get(key, default)] *)
Definition get (payload : gmap string pyval) (key : string) (default : pyval)
  : pyval :=
  match payload !! key with
  | Some v => v
  | None => default
  end.

Definition execute (payload : gmap string pyval) : M ExecutionResult :=
  let code := get payload "code" (PyStr "") in
  let language := get payload "language" (PyStr "") in
  let stdin := get payload "stdin" PyNone in
  if decide (language = PyStr "python") then run_python code stdin
  else if decide (language = PyStr "javascript") then run_js code stdin
  else if decide (language = PyStr "c") then run_c code stdin
  else if decide (language = PyStr "cpp") then run_cpp code stdin
  else ret {| output := "";
              error := "Unsupported language: " +:+ py_str language;
              success := false |}.

End Pipelines.

(** ** The two shapes of a pipeline

    [run_python] and [run_js] are the same text up to the file suffix and
    the interpreter, [run_c] and [run_cpp] up to the file suffix and the
    compiler.  The properties below are proved once for each shape. *)

Section Shapes.

Variable host : Host.

Definition run_interpreted (suffix : string) (interpreter : string)
    (code stdin : pyval) : M ExecutionResult :=
  set_resource_limits ;;
  path <- NamedTemporaryFile host suffix code ;;
  result <- try_finally
              (subprocess_run host [interpreter; path] 25 (input_of stdin))
              (os_unlink path) ;;
  ret {| output := truncate_output (stdout result) MAX_OUTPUT_LENGTH;
         error := truncate_output (stderr result) MAX_OUTPUT_LENGTH;
         success := returncode result =? 0 |}.

(** The command line of the compile step. *)
Definition compile_cmd (compiler src : string) : list string :=
  [compiler; src; "-O2"; "-o"; src +:+ ".out"].

(** The [finally] block of [run_c] and [run_cpp]. *)
Definition cleanup (src exe : string) : M unit :=
  src_found <- os_path_exists src ;;
  when src_found (os_unlink src) ;;
  exe_found <- os_path_exists exe ;;
  when exe_found (os_unlink exe).

Definition run_compiled (suffix : string) (compiler : string)
    (code stdin : pyval) : M ExecutionResult :=
  set_resource_limits ;;
  src <- NamedTemporaryFile host suffix code ;;
  let exe := src +:+ ".out" in
  try_finally
    (compile_res <- subprocess_run host (compile_cmd compiler src) 20 None ;;
     if negb (returncode compile_res =? 0) then
       ret {| output := "";
              error := truncate_output (stderr compile_res) MAX_OUTPUT_LENGTH;
              success := false |}
     else
       run_res <- subprocess_run host [exe] 20 (input_of stdin) ;;
       ret {| output := truncate_output (stdout run_res) MAX_OUTPUT_LENGTH;
              error := truncate_output (stderr run_res) MAX_OUTPUT_LENGTH;
              success := returncode run_res =? 0 |})
    (cleanup src exe).

End Shapes.

(** ** Reading the outcome of a call *)

Definition result_of {A} (x : outcome A * World * list event) : outcome A := x.1.1.
Definition world_of {A} (x : outcome A * World * list event) : World := x.1.2.
Definition events_of {A} (x : outcome A * World * list event) : list event := x.2.

(** The language, code and stdin a payload stands for. *)
Definition language_of (payload : gmap string pyval) : pyval :=
  get payload "language" (PyStr "").
Definition code_of (payload : gmap string pyval) : pyval :=
  get payload "code" (PyStr "").
Definition stdin_of (payload : gmap string pyval) : pyval :=
  get payload "stdin" PyNone.

Definition interpreted (payload : gmap string pyval) : Prop :=
  language_of payload = PyStr "python" ∨ language_of payload = PyStr "javascript".
Definition compiled (payload : gmap string pyval) : Prop :=
  language_of payload = PyStr "c" ∨ language_of payload = PyStr "cpp".
Definition supported (payload : gmap string pyval) : Prop :=
  interpreted payload ∨ compiled payload.

(** The limits [set_resource_limits] installs. *)
Definition service_limits : rlimits :=
  {| rlimit_cpu := (2, 2); rlimit_as := (268435456, 268435456) |}.

(** The children spawned during a call, in order. *)
Definition spawn_of (ev : event) : option spawned :=
  match ev with
  | EvSpawn sp => Some sp
  | _ => None
  end.

Definition spawns (t : list event) : list spawned := omap spawn_of t.

(** How the last child spawned during a call ended. *)
Definition final_process (t : list event) : option child_end :=
  sp_end <$> last (spawns t).

(** A compiler invocation has five words; the command line of a run step
    has one (the artifact) or two (interpreter and source). *)
Definition is_run_step (sp : spawned) : bool :=
  negb (length (sp_cmd sp) =? 5)%nat.

(** The paths [os.unlink] was called on. *)
Definition unlink_of (ev : event) : option string :=
  match ev with
  | EvUnlink path => Some path
  | _ => None
  end.

Definition unlinked (t : list event) : list string := omap unlink_of t.



(** The files created by [tempfile] during a call. *)
Definition create_of (ev : event) : option string :=
  match ev with
  | EvCreate path => Some path
  | _ => None
  end.

Definition created (t : list event) : list string := omap create_of t.

(** The limits [resource.setrlimit] was called with. *)
Definition setrlimit_of (ev : event) : option (resource * (Z * Z)) :=
  match ev with
  | EvSetrlimit r v => Some (r, v)
  | _ => None
  end.

Definition limits_set (t : list event) : list (resource * (Z * Z)) :=
  omap setrlimit_of t.

(** ** Events of the fixed parts of a call *)

(** Events of [set_resource_limits]. *)
Definition limit_events : list event :=
  [EvSetrlimit RLIMIT_CPU (2, 2); EvSetrlimit RLIMIT_AS (268435456, 268435456)].

(** Events of [cleanup src exe] when it starts with the files [fs]. *)
Definition cleanup_events (src exe : string) (fs : gmap string string)
  : list event :=
  let src_found := bool_decide (is_Some (fs !! src)) in
  let exe_found := bool_decide (is_Some (delete src fs !! exe)) in
  EvExists src src_found :: (if src_found then [EvUnlink src] else [])
    ++ EvExists exe exe_found :: (if exe_found then [EvUnlink exe] else []).

(** ** The paths through a pipeline

    What a call returns and which children it spawns, path by path.  The
    lemmas [run_interpreted_path] and [run_compiled_path] show that every
    call follows one of them. *)

Definition result_from (p : CompletedProcess) : ExecutionResult :=
  {| output := truncate_output (stdout p) MAX_OUTPUT_LENGTH;
     error := truncate_output (stderr p) MAX_OUTPUT_LENGTH;
     success := returncode p =? 0 |}.

Definition compile_error (p : CompletedProcess) : ExecutionResult :=
  {| output := "";
     error := truncate_output (stderr p) MAX_OUTPUT_LENGTH;
     success := false |}.

Definition run_of (cmd : list string) (input : option string) (timeout : Z)
    (e : child_end) : spawned :=
  {| sp_cmd := cmd; sp_input := input; sp_timeout := timeout;
     sp_limits := service_limits; sp_end := e |}.

Inductive interpreted_path (cmd : list string) (path : string) (stdin : pyval)
  : pyval → outcome ExecutionResult → list spawned → Prop :=
| ip_unwritten :
    interpreted_path cmd path stdin PyNone (Raise TypeError) []
| ip_source_gone s e :
    interpreted_path cmd path stdin (PyStr s) (Raise (FileNotFoundError path))
      [run_of cmd (input_of stdin) 25 e]
| ip_timeout s :
    interpreted_path cmd path stdin (PyStr s) (Raise (TimeoutExpired cmd 25))
      [run_of cmd (input_of stdin) 25 Overran]
| ip_not_started s :
    interpreted_path cmd path stdin (PyStr s) (Raise OSError)
      [run_of cmd (input_of stdin) 25 NotStarted]
| ip_exited s p :
    interpreted_path cmd path stdin (PyStr s) (Return (result_from p))
      [run_of cmd (input_of stdin) 25 (Exited p)].

Inductive compiled_path (build : list string) (exe : string) (stdin : pyval)
  : pyval → outcome ExecutionResult → list spawned → Prop :=
| cp_unwritten :
    compiled_path build exe stdin PyNone (Raise TypeError) []
| cp_compile_timeout s :
    compiled_path build exe stdin (PyStr s) (Raise (TimeoutExpired build 20))
      [run_of build None 20 Overran]
| cp_compile_not_started s :
    compiled_path build exe stdin (PyStr s) (Raise OSError)
      [run_of build None 20 NotStarted]
| cp_compile_failed s p :
    returncode p ≠ 0 →
    compiled_path build exe stdin (PyStr s) (Return (compile_error p))
      [run_of build None 20 (Exited p)]
| cp_run_timeout s p :
    returncode p = 0 →
    compiled_path build exe stdin (PyStr s) (Raise (TimeoutExpired [exe] 20))
      [run_of build None 20 (Exited p);
       run_of [exe] (input_of stdin) 20 Overran]
| cp_run_not_started s p :
    returncode p = 0 →
    compiled_path build exe stdin (PyStr s) (Raise OSError)
      [run_of build None 20 (Exited p);
       run_of [exe] (input_of stdin) 20 NotStarted]
| cp_run_exited s p q :
    returncode p = 0 →
    compiled_path build exe stdin (PyStr s) (Return (result_from q))
      [run_of build None 20 (Exited p);
       run_of [exe] (input_of stdin) 20 (Exited q)].

(** ** A test bench

    A host whose children behave as their program text says: ["sleep"] never
    ends, ["fail"] exits with status 1, any other program copies its input
    to its output.  Its compiler rejects ["syntax error"], hangs on
    ["#include stall"] and otherwise writes the program as the artifact. *)

Definition bench_program (text : option string) (input : option string)
  : child_end :=
  match text with
  | None => NotStarted
  | Some t =>
      if String.eqb t "sleep" then Overran
      else if String.eqb t "fail" then
        Exited {| stdout := ""; stderr := "boom"; returncode := 1 |}
      else
        Exited {| stdout := default "" input; stderr := ""; returncode := 0 |}
  end.

Definition bench_child (cmd : list string) (input : option string)
    (timeout : Z) (inherited : rlimits) (fs : gmap string string)
  : child_end * gmap string string :=
  match cmd with
  | [_; src; _; _; exe] =>
      match fs !! src with
      | Some t =>
          if String.eqb t "syntax error" then
            (Exited {| stdout := ""; stderr := "error: expected declaration";
                       returncode := 1 |}, fs)
          else if String.eqb t "#include stall" then (Overran, fs)
          else (Exited {| stdout := ""; stderr := ""; returncode := 0 |},
                <[exe := t]> fs)
      | None => (NotStarted, fs)
      end
  | [_; path] => (bench_program (fs !! path) input, fs)
  | [exe] => (bench_program (fs !! exe) input, fs)
  | _ => (NotStarted, fs)
  end.

Definition bench : Host :=
  {| sys_executable := "/usr/local/bin/python";
     tmpname := λ _, "/tmp/tmpk3x9";
     child := bench_child |}.

(** A worker that has not run anything yet. *)
Definition idle : World := {| files := ∅; limits := unlimited |}.

Definition request (language code : string) : gmap string pyval :=
  <["language" := PyStr language]> (<["code" := PyStr code]> ∅).

Definition request_with_stdin (language code stdin : string)
  : gmap string pyval :=
  <["stdin" := PyStr stdin]> (request language code).

(** [{"language": language, "code": null}] *)
Definition request_null_code (language : string) : gmap string pyval :=
  <["language" := PyStr language]> (<["code" := PyNone]> ∅).

(** A text of [n] characters. *)
Fixpoint filler (n : nat) : string :=
  match n with
  | O => ""
  | S n' => String "x" (filler n')
  end.

Definition long_text : string := filler (Z.to_nat 10003).

(** ** More readings of a call and of the source *)



(** The longest a call may wait for its children: the sum of the timeouts
    it passes to [subprocess.run]. *)
Definition wall_clock_budget (t : list event) : Z :=
  foldr Z.add 0 (sp_timeout <$> spawns t).

(** The [timeout] of the [@app.function] decorators (app.py, lines 37, 63,
    89 and 134), in seconds. *)
Definition run_python_timeout : Z := 30.
Definition run_js_timeout : Z := 30.
Definition run_c_timeout : Z := 45.
Definition run_cpp_timeout : Z := 45.

(** The notice [truncate_output] appends, for the number [n] as printed. *)
Definition notice (n : string) : string :=
  newline +:+ "... (truncated, " +:+ n +:+ " more characters)".



(** * Properties *)

(** ** Strings and numerals *)

Lemma length_substring_0 (s : string) (n : nat) :
  String.length (substring 0 n s) = Nat.min n (String.length s).
Proof.
  revert n. induction s as [|c s IH]; intros [|n]; simpl; auto.
Qed.

Lemma prefix_substring_0 (s : string) (n : nat) :
  String.prefix (substring 0 n s) s = true.
Proof.
  revert n. induction s as [|c s IH]; intros [|n]; simpl; auto.
  destruct (ascii_dec c c); [apply IH | congruence].
Qed.

(** Within the string, [text[:stop]] has exactly [stop] characters and is
    an initial segment of [text]. *)
Lemma slice_to_prefix (text : string) (stop : Z) :
  0 ≤ stop ≤ len text →
  len (slice_to text stop) = stop ∧ String.prefix (slice_to text stop) text = true.
Proof.
  intros [Hlo Hhi]. unfold slice_to.
  destruct (Z.ltb_spec stop 0) as [?|_]; [lia|].
  split; [|apply prefix_substring_0].
  unfold len in *. rewrite length_substring_0. lia.
Qed.

(** A printed integer reads back as itself. *)
Lemma int_of_str_str_int (n : Z) : int_of_str (str_int n) = Some n.
Proof.
  unfold int_of_str, str_int.
  rewrite NilZero.isi.
  - simpl. f_equal. apply DecimalZ.of_to.
  - destruct n; simpl; try discriminate.
    intros [= H]. by apply DecimalPos.Unsigned.to_uint_nonnil in H.
  - destruct n; simpl; try discriminate.
    intros [= H]. by apply DecimalPos.Unsigned.to_uint_nonnil in H.
Qed.

Lemma len_filler (n : nat) : len (filler n) = Z.of_nat n.
Proof.
  unfold len. f_equal. induction n as [|n IH]; simpl; congruence.
Qed.

(** C3.  [truncate_output] with the default limit returns a text of at most
    10000 characters unchanged; a longer text becomes its first 10000
    characters followed by the notice, whose number reads as exactly
    [len(text) - 10000]. *)
Theorem truncate_output_spec (text : string) :
  (len text ≤ 10000 → truncate_output text MAX_OUTPUT_LENGTH = text) ∧
  (len text > 10000 →
   ∃ head count,
     truncate_output text MAX_OUTPUT_LENGTH
       = head +:+ newline +:+ "... (truncated, " +:+ count +:+ " more characters)"
     ∧ len head = 10000
     ∧ String.prefix head text = true
     ∧ int_of_str count = Some (len text - 10000)).
Proof.
  unfold truncate_output, MAX_OUTPUT_LENGTH. split; intros Hlen.
  - destruct (Z.gtb_spec (len text) 10000) as [?|_]; [lia | reflexivity].
  - destruct (Z.gtb_spec (len text) 10000) as [_|?]; [|lia].
    exists (slice_to text 10000), (str_int (len text - 10000)).
    destruct (slice_to_prefix text 10000) as [Hl Hp]; [lia|].
    auto using int_of_str_str_int.
Qed.

Lemma truncate_output_spec_witness :
  truncate_output "hi" MAX_OUTPUT_LENGTH = "hi" ∧
  ∃ head count,
    truncate_output long_text MAX_OUTPUT_LENGTH
      = head +:+ newline +:+ "... (truncated, " +:+ count +:+ " more characters)"
    ∧ len head = 10000
    ∧ String.prefix head long_text = true
    ∧ int_of_str count = Some (len long_text - 10000).
Proof.
  split.
  - apply (truncate_output_spec "hi"). vm_compute. discriminate.
  - apply (truncate_output_spec long_text).
    unfold long_text. rewrite len_filler. lia.
Defined.

(** ** Running the monad step by step *)

Section Steps.
Context {A B : Type}.

Lemma bind_Return (m : M A) (k : A → M B) w a w1 t1 :
  m w = (Return a, w1, t1) →
  bind m k w = (result_of (k a w1), world_of (k a w1), t1 ++ events_of (k a w1)).
Proof. unfold bind. intros ->. by destruct (k a w1) as [[r w2] t2]. Qed.

Lemma bind_Raise (m : M A) (k : A → M B) w e w1 t1 :
  m w = (Raise e, w1, t1) → bind m k w = (Raise e, w1, t1).
Proof. unfold bind. by intros ->. Qed.

(** A handler that does not raise leaves the outcome of the body alone. *)
Lemma try_finally_Return (body : M A) (handler : M unit) w u :
  result_of (handler (world_of (body w))) = Return u →
  try_finally body handler w =
    (result_of (body w), world_of (handler (world_of (body w))),
     events_of (body w) ++ events_of (handler (world_of (body w)))).
Proof.
  unfold try_finally, result_of, world_of, events_of.
  destruct (body w) as [[r w1] t1]; simpl.
  destruct (handler w1) as [[[]] t2]; simpl; [done | discriminate].
Qed.

(** Whatever the body does, the handler runs once, after it. *)
Lemma try_finally_handler_runs (body : M A) (handler : M unit) w :
  world_of (try_finally body handler w) = world_of (handler (world_of (body w)))
  ∧ events_of (try_finally body handler w)
      = events_of (body w) ++ events_of (handler (world_of (body w))).
Proof.
  unfold try_finally, world_of, events_of.
  destruct (body w) as [[r w1] t1]; simpl.
  by destruct (handler w1) as [[[]] t2].
Qed.

End Steps.

Lemma set_resource_limits_eq w :
  set_resource_limits w =
    (Return tt, {| files := files w; limits := service_limits |}, limit_events).
Proof. reflexivity. Qed.

Lemma os_unlink_eq path w :
  os_unlink path w =
    (match files w !! path with
     | Some _ => Return tt
     | None => Raise (FileNotFoundError path)
     end,
     {| files := delete path (files w); limits := limits w |},
     [EvUnlink path]).
Proof.
  unfold os_unlink. destruct w as [fs l]; simpl.
  destruct (fs !! path) eqn:E; [done|].
  by rewrite delete_id.
Qed.

(** The [finally] block of the compiled pipelines never raises: it removes
    what is there and skips what is not. *)
Lemma cleanup_eq src exe w :
  cleanup src exe w =
    (Return tt,
     {| files := delete exe (delete src (files w)); limits := limits w |},
     cleanup_events src exe (files w)).
Proof.
  destruct w as [fs l].
  unfold cleanup, cleanup_events, bind, os_path_exists, when, ret; simpl.
  destruct (fs !! src) as [c|] eqn:Es; simpl.
  - rewrite os_unlink_eq; simpl. rewrite Es; simpl.
    destruct (delete src fs !! exe) as [c'|] eqn:Ee; simpl.
    + rewrite os_unlink_eq; simpl. by rewrite Ee.
    + by rewrite (delete_id _ exe).
  - rewrite (delete_id fs src) by done.
    destruct (fs !! exe) as [c'|] eqn:Ee; simpl.
    + rewrite os_unlink_eq; simpl. by rewrite Ee.
    + by rewrite (delete_id _ exe).
Qed.

Lemma spawns_cleanup_events src exe fs : spawns (cleanup_events src exe fs) = [].
Proof. unfold cleanup_events. by do 2 case_bool_decide. Qed.


Lemma spawns_app t1 t2 : spawns (t1 ++ t2) = spawns t1 ++ spawns t2.
Proof. apply omap_app. Qed.

(** ** The pipelines, written out *)

Section Equations.
Variable host : Host.

Lemma NamedTemporaryFile_str suffix s w :
  NamedTemporaryFile host suffix (PyStr s) w =
    (Return (tmpname host (files w) +:+ suffix),
     {| files := <[tmpname host (files w) +:+ suffix := s]> (files w);
        limits := limits w |},
     [EvCreate (tmpname host (files w) +:+ suffix);
      EvWrite (tmpname host (files w) +:+ suffix) s]).
Proof. reflexivity. Qed.

(** When the code is not a string the call ends in the [with] block: the
    file has been created and nothing removes it. *)
Lemma run_interpreted_None suffix interp stdin w :
  run_interpreted host suffix interp PyNone stdin w =
    (Raise TypeError,
     {| files := <[tmpname host (files w) +:+ suffix := ""]> (files w);
        limits := service_limits |},
     limit_events ++ [EvCreate (tmpname host (files w) +:+ suffix)]).
Proof. reflexivity. Qed.

Lemma run_compiled_None suffix compiler stdin w :
  run_compiled host suffix compiler PyNone stdin w =
    (Raise TypeError,
     {| files := <[tmpname host (files w) +:+ suffix := ""]> (files w);
        limits := service_limits |},
     limit_events ++ [EvCreate (tmpname host (files w) +:+ suffix)]).
Proof. reflexivity. Qed.

Lemma run_interpreted_str suffix interp s stdin w :
  let path := tmpname host (files w) +:+ suffix in
  let cmd := [interp; path] in
  let run := child host cmd (input_of stdin) 25 service_limits
               (<[path := s]> (files w)) in
  run_interpreted host suffix interp (PyStr s) stdin w =
    (match run.2 !! path, run.1 with
     | None, _ => Raise (FileNotFoundError path)
     | Some _, Exited p => Return (result_from p)
     | Some _, Overran => Raise (TimeoutExpired cmd 25)
     | Some _, NotStarted => Raise OSError
     end,
     {| files := delete path run.2; limits := service_limits |},
     limit_events
       ++ [EvCreate path; EvWrite path s;
           EvSpawn (run_of cmd (input_of stdin) 25 run.1);
           EvUnlink path]).
Proof.
  intros path cmd run. unfold run_interpreted.
  rewrite (bind_Return _ _ _ _ _ _ (set_resource_limits_eq w)).
  unfold result_of, world_of, events_of.
  rewrite (bind_Return _ _ _ _ _ _ (NamedTemporaryFile_str _ _ _)).
  cbn [files limits fst snd]. fold path.
  unfold bind at 1 2 3, try_finally, subprocess_run, result_of, world_of, events_of.
  cbn [files limits fst snd]. fold cmd. fold run.
  destruct run as [e fs]. rewrite os_unlink_eq. cbn [files limits fst snd].
  destruct (fs !! path) as [c|], e as [p| |]; reflexivity.
Qed.

Lemma run_compiled_str suffix compiler s stdin w :
  let src := tmpname host (files w) +:+ suffix in
  let exe := src +:+ ".out" in
  let build := child host (compile_cmd compiler src) None 20 service_limits
                 (<[src := s]> (files w)) in
  let run := child host [exe] (input_of stdin) 20 service_limits build.2 in
  let built := EvSpawn (run_of (compile_cmd compiler src) None 20 build.1) in
  let ran := EvSpawn (run_of [exe] (input_of stdin) 20 run.1) in
  let start := limit_events ++ [EvCreate src; EvWrite src s] in
  let cleaned fs :=
    {| files := delete exe (delete src fs); limits := service_limits |} in
  run_compiled host suffix compiler (PyStr s) stdin w =
    match build.1 with
    | Exited p =>
        if returncode p =? 0 then
          (match run.1 with
           | Exited q => Return (result_from q)
           | Overran => Raise (TimeoutExpired [exe] 20)
           | NotStarted => Raise OSError
           end,
           cleaned run.2,
           start ++ [built; ran] ++ cleanup_events src exe run.2)
        else
          (Return (compile_error p), cleaned build.2,
           start ++ [built] ++ cleanup_events src exe build.2)
    | Overran =>
        (Raise (TimeoutExpired (compile_cmd compiler src) 20),
         cleaned build.2,
         start ++ [built] ++ cleanup_events src exe build.2)
    | NotStarted =>
        (Raise OSError, cleaned build.2,
         start ++ [built] ++ cleanup_events src exe build.2)
    end.
Proof.
  intros src exe build run built ran start cleaned. unfold run_compiled.
  rewrite (bind_Return _ _ _ _ _ _ (set_resource_limits_eq w)).
  unfold result_of, world_of, events_of.
  rewrite (bind_Return _ _ _ _ _ _ (NamedTemporaryFile_str _ _ _)).
  cbn [files limits fst snd]. fold src. fold exe.
  rewrite (try_finally_Return _ _ _ tt) by (by rewrite cleanup_eq).
  rewrite cleanup_eq.
  unfold bind, subprocess_run, result_of, world_of, events_of.
  cbn [files limits fst snd].
  fold build.
  subst built ran. destruct build as [e1 fs1]. cbn [fst snd] in *.
  destruct e1 as [p| |]; cbn [run_outcome]; try reflexivity.
  destruct (returncode p =? 0); cbn [negb ret files limits fst snd]; try reflexivity.
  fold run. destruct run as [e2 fs2]. cbn [fst snd].
  destruct e2 as [q| |]; reflexivity.
Qed.

(** Every call of an interpreted pipeline follows one of the paths. *)
Lemma run_interpreted_path suffix interp code stdin w :
  let path := tmpname host (files w) +:+ suffix in
  let x := run_interpreted host suffix interp code stdin w in
  interpreted_path [interp; path] path stdin code
    (result_of x) (spawns (events_of x)).
Proof.
  intros path x. subst x. destruct code as [|s].
  - rewrite run_interpreted_None. constructor.
  - rewrite run_interpreted_str. fold path.
    destruct (child host _ _ _ _ _) as [e fs].
    unfold result_of, events_of; cbn [fst snd].
    destruct (fs !! path) as [c|], e as [p| |]; constructor.
Qed.

(** Every call of a compiled pipeline follows one of the paths. *)
Lemma run_compiled_path suffix compiler code stdin w :
  let src := tmpname host (files w) +:+ suffix in
  let x := run_compiled host suffix compiler code stdin w in
  compiled_path (compile_cmd compiler src) (src +:+ ".out") stdin code
    (result_of x) (spawns (events_of x)).
Proof.
  intros src x. subst x. destruct code as [|s].
  - rewrite run_compiled_None. constructor.
  - rewrite run_compiled_str. fold src.
    destruct (child host (compile_cmd _ _) _ _ _ _) as [e1 fs1]; cbn [fst snd].
    destruct e1 as [p| |];
      [destruct (Z.eqb_spec (returncode p) 0) as [Hp|Hp];
       [destruct (child host _ _ _ _ _) as [e2 fs2]; cbn [fst snd]|]|..];
      unfold result_of, events_of; cbn [fst snd];
      rewrite !spawns_app, spawns_cleanup_events; cbn.
    + destruct e2 as [q| |]; by constructor.
    + by constructor.
    + constructor.
    + constructor.
Qed.

End Equations.

(** ** Dispatch *)

Section Dispatch.
Variable host : Host.

Lemma run_python_shape :
  run_python host = run_interpreted host ".py" (sys_executable host).
Proof. reflexivity. Qed.

Lemma run_js_shape : run_js host = run_interpreted host ".js" "node".
Proof. reflexivity. Qed.

Lemma run_c_shape : run_c host = run_compiled host ".c" "gcc".
Proof. reflexivity. Qed.

Lemma run_cpp_shape : run_cpp host = run_compiled host ".cpp" "g++".
Proof. reflexivity. Qed.

Lemma execute_interpreted payload :
  interpreted payload →
  ∃ suffix interp,
    execute host payload
      = run_interpreted host suffix interp (code_of payload) (stdin_of payload).
Proof.
  unfold interpreted, language_of, execute.
  rewrite run_python_shape, run_js_shape.
  intros [H|H]; rewrite H; eauto.
Qed.

Lemma execute_compiled payload :
  compiled payload →
  ∃ suffix compiler,
    (compiler = "gcc" ∨ compiler = "g++")
    ∧ execute host payload
        = run_compiled host suffix compiler (code_of payload) (stdin_of payload).
Proof.
  unfold compiled, language_of, execute.
  rewrite run_c_shape, run_cpp_shape.
  intros [H|H]; rewrite H; simpl; eauto.
Qed.

Lemma execute_unsupported payload w :
  language_of payload ≠ PyStr "python" →
  language_of payload ≠ PyStr "javascript" →
  language_of payload ≠ PyStr "c" →
  language_of payload ≠ PyStr "cpp" →
  execute host payload w =
    (Return {| output := "";
               error := "Unsupported language: " +:+ py_str (language_of payload);
               success := false |}, w, []).
Proof.
  unfold language_of, execute. intros H1 H2 H3 H4.
  by repeat case_decide.
Qed.

Lemma execute_interpreted_path payload w :
  interpreted payload →
  ∃ interp path,
    interpreted_path [interp; path] path (stdin_of payload) (code_of payload)
      (result_of (execute host payload w))
      (spawns (events_of (execute host payload w))).
Proof.
  intros (suffix & interp & ->)%execute_interpreted.
  eexists _, _. apply run_interpreted_path.
Qed.

Lemma execute_compiled_path payload w :
  compiled payload →
  ∃ compiler src,
    (compiler = "gcc" ∨ compiler = "g++")
    ∧ compiled_path (compile_cmd compiler src) (src +:+ ".out")
        (stdin_of payload) (code_of payload)
        (result_of (execute host payload w))
        (spawns (events_of (execute host payload w))).
Proof.
  intros (suffix & compiler & Hc & ->)%execute_compiled.
  eexists _, _. split; [done | apply run_compiled_path].
Qed.

End Dispatch.

(** ** The dispatcher *)

(** C4.  A language identifier outside python, javascript, c and cpp gets
    the result [{output: "", error: "Unsupported language: <language>",
    success: false}]; the world is left as it was and no operating-system
    call is made, so no file is created or deleted. *)
Theorem unsupported_language_no_effect host payload w (language : string) :
  payload !! "language" = Some (PyStr language) →
  language ∉ ["python"; "javascript"; "c"; "cpp"] →
  execute host payload w =
    (Return {| output := "";
               error := "Unsupported language: " +:+ language;
               success := false |}, w, []).
Proof.
  intros Hl Hout.
  assert (language_of payload = PyStr language) as Hv
    by (unfold language_of, get; by rewrite Hl).
  rewrite execute_unsupported; rewrite Hv; [done|..];
    intros [= ->]; apply Hout; set_solver.
Qed.

Lemma unsupported_language_no_effect_witness :
  execute bench (request "go" "package main") idle =
    (Return {| output := "";
               error := "Unsupported language: go";
               success := false |}, idle, []).
Proof.
  apply (unsupported_language_no_effect bench (request "go" "package main") idle "go").
  - reflexivity.
  - intros H. repeat (apply elem_of_cons in H as [H|H]; [discriminate H|]).
    by apply elem_of_nil in H.
Defined.

(** ** What a pipeline leaves behind *)

Section Frames.
Variable host : Host.

Lemma unlinked_cleanup_events src exe fs :
  unlinked (cleanup_events src exe fs)
    = (if bool_decide (is_Some (fs !! src)) then [src] else [])
      ++ (if bool_decide (is_Some (delete src fs !! exe)) then [exe] else []).
Proof. unfold cleanup_events. by do 2 case_bool_decide. Qed.

Lemma limits_set_cleanup_events src exe fs :
  limits_set (cleanup_events src exe fs) = [].
Proof. unfold cleanup_events. by do 2 case_bool_decide. Qed.

(** The events of an interpreted pipeline whose code is a string. *)
Lemma run_interpreted_events suffix interp s stdin w :
  let path := tmpname host (files w) +:+ suffix in
  ∃ e,
    events_of (run_interpreted host suffix interp (PyStr s) stdin w)
      = limit_events
          ++ [EvCreate path; EvWrite path s;
              EvSpawn (run_of [interp; path] (input_of stdin) 25 e);
              EvUnlink path].
Proof. intros path. rewrite run_interpreted_str. by eexists. Qed.

(** The events of a compiled pipeline whose code is a string: the [try]
    block spawns one or two children, then the [finally] block runs. *)
Lemma run_compiled_events suffix compiler s stdin w :
  let src := tmpname host (files w) +:+ suffix in
  let exe := src +:+ ".out" in
  ∃ e children fs,
    events_of (run_compiled host suffix compiler (PyStr s) stdin w)
      = limit_events
          ++ [EvCreate src; EvWrite src s;
              EvSpawn (run_of (compile_cmd compiler src) None 20 e)]
          ++ (EvSpawn <$> children) ++ cleanup_events src exe fs.
Proof.
  intros src exe. rewrite run_compiled_str. fold src exe.
  destruct (child host (compile_cmd _ _) _ _ _ _) as [e1 fs1]; cbn [fst snd].
  destruct e1 as [p| |]; [destruct (returncode p =? 0)|..];
    unfold events_of; cbn [snd].
  - eexists _, [_], _. by rewrite <- !app_assoc.
  - eexists _, [], _. by rewrite <- !app_assoc.
  - eexists _, [], _. by rewrite <- !app_assoc.
  - eexists _, [], _. by rewrite <- !app_assoc.
Qed.

Lemma run_interpreted_limits suffix interp code stdin w :
  limits (world_of (run_interpreted host suffix interp code stdin w))
    = service_limits.
Proof.
  destruct code; [by rewrite run_interpreted_None | by rewrite run_interpreted_str].
Qed.

Lemma run_compiled_limits suffix compiler code stdin w :
  limits (world_of (run_compiled host suffix compiler code stdin w))
    = service_limits.
Proof.
  destruct code as [|s]; [by rewrite run_compiled_None|].
  rewrite run_compiled_str.
  destruct (child host (compile_cmd _ _) _ _ _ _) as [e1 fs1]; cbn [fst snd].
  by destruct e1 as [p| |]; [destruct (returncode p =? 0)|..].
Qed.

Lemma run_interpreted_limits_set suffix interp code stdin w :
  limits_set (events_of (run_interpreted host suffix interp code stdin w))
    = [(RLIMIT_CPU, (2, 2)); (RLIMIT_AS, (268435456, 268435456))].
Proof.
  destruct code; [by rewrite run_interpreted_None | by rewrite run_interpreted_str].
Qed.

Lemma run_compiled_limits_set suffix compiler code stdin w :
  limits_set (events_of (run_compiled host suffix compiler code stdin w))
    = [(RLIMIT_CPU, (2, 2)); (RLIMIT_AS, (268435456, 268435456))].
Proof.
  destruct code as [|s]; [by rewrite run_compiled_None|].
  destruct (run_compiled_events suffix compiler s stdin w)
    as (e & children & fs & ->).
  unfold limits_set. rewrite !omap_app, (limits_set_cleanup_events _ _ fs).
  replace (omap setrlimit_of (EvSpawn <$> children)) with (@nil (resource * (Z * Z))).
  - reflexivity.
  - induction children; simpl; auto.
Qed.



(** A pipeline given [null] as its code creates the source file, fails in
    [f.write], and unlinks nothing: the file stays on disk. *)
Lemma run_interpreted_leaks suffix interp stdin w :
  let path := tmpname host (files w) +:+ suffix in
  let x := run_interpreted host suffix interp PyNone stdin w in
  result_of x = Raise TypeError
  ∧ created (events_of x) = [path]
  ∧ files (world_of x) !! path = Some ""
  ∧ unlinked (events_of x) = [].
Proof.
  intros path x. subst x. rewrite run_interpreted_None.
  unfold result_of, world_of, events_of; cbn [fst snd files].
  by rewrite lookup_insert_eq.
Qed.

Lemma run_compiled_leaks suffix compiler stdin w :
  let path := tmpname host (files w) +:+ suffix in
  let x := run_compiled host suffix compiler PyNone stdin w in
  result_of x = Raise TypeError
  ∧ created (events_of x) = [path]
  ∧ files (world_of x) !! path = Some ""
  ∧ unlinked (events_of x) = [].
Proof.
  intros path x. subst x. rewrite run_compiled_None.
  unfold result_of, world_of, events_of; cbn [fst snd files].
  by rewrite lookup_insert_eq.
Qed.

End Frames.

(** ** Cleanup *)

Lemma interpreted_not_compiled payload : interpreted payload → ¬ compiled payload.
Proof. unfold interpreted, compiled. intros [H|H] [H'|H']; congruence. Qed.


(** C1.  The call [execute({"language": l, "code": null})] with a supported
    language creates the source file, raises [TypeError] from [f.write]
    before the [try] block is entered, and makes no cleanup attempt: the
    file is still on disk when the call ends. *)
Theorem null_code_leaves_source_file host payload w :
  supported payload →
  code_of payload = PyNone →
  let x := execute host payload w in
  ∃ path,
    result_of x = Raise TypeError
    ∧ created (events_of x) = [path]
    ∧ files (world_of x) !! path = Some ""
    ∧ unlinked (events_of x) = [].
Proof.
  intros [Hi|Hc] Hcode x; subst x.
  - destruct (execute_interpreted host payload Hi) as (suffix & interp & ->).
    rewrite Hcode. eexists. apply run_interpreted_leaks.
  - destruct (execute_compiled host payload Hc) as (suffix & compiler & _ & ->).
    rewrite Hcode. eexists. apply run_compiled_leaks.
Qed.

Lemma null_code_leaves_source_file_witness :
  let x := execute bench (request_null_code "python") idle in
  ∃ path,
    result_of x = Raise TypeError
    ∧ created (events_of x) = [path]
    ∧ files (world_of x) !! path = Some ""
    ∧ unlinked (events_of x) = [].
Proof.
  apply (null_code_leaves_source_file bench (request_null_code "python") idle).
  - left. left. reflexivity.
  - reflexivity.
Defined.

(** ** Failures *)




(** C5.  In the c and cpp pipelines, when the first child, the compiler,
    exits with a non-zero status, it is the only child of the call (the run
    step does not happen) and the result is
    [{output: "", error: truncated compiler stderr, success: false}]. *)
Theorem compile_failure_skips_run host payload w sp p :
  compiled payload →
  head (spawns (events_of (execute host payload w))) = Some sp →
  sp_end sp = Exited p →
  returncode p ≠ 0 →
  result_of (execute host payload w) =
    Return {| output := "";
              error := truncate_output (stderr p) MAX_OUTPUT_LENGTH;
              success := false |}
  ∧ spawns (events_of (execute host payload w)) = [sp]
  ∧ ∃ compiler src,
      (compiler = "gcc" ∨ compiler = "g++")
      ∧ sp_cmd sp = [compiler; src; "-O2"; "-o"; src +:+ ".out"].
Proof.
  intros Hc Hhead Hend Hrc.
  destruct (execute_compiled_path host payload w Hc)
    as (compiler & src & Hcc & Hpath).
  inversion Hpath as [ | | |s q Hq|s q Hq|s q Hq|s q r Hq];
    match goal with H : _ = spawns _ |- _ => rewrite <- H in * end;
    simplify_eq/=; try congruence.
  split; [done|]. split; [done|]. by exists compiler, src.
Qed.

Lemma compile_failure_skips_run_witness :
  result_of (execute bench (request "cpp" "syntax error") idle) =
    Return {| output := "";
              error := "error: expected declaration";
              success := false |}
  ∧ length (spawns (events_of (execute bench (request "cpp" "syntax error") idle)))
      = 1%nat.
Proof.
  destruct (compile_failure_skips_run bench (request "cpp" "syntax error") idle
              (run_of ["g++"; "/tmp/tmpk3x9.cpp"; "-O2"; "-o"; "/tmp/tmpk3x9.cpp.out"]
                 None 20
                 (Exited {| stdout := ""; stderr := "error: expected declaration";
                            returncode := 1 |}))
              {| stdout := ""; stderr := "error: expected declaration";
                 returncode := 1 |}) as (Hres & Hsp & _).
  - right. reflexivity.
  - reflexivity.
  - reflexivity.
  - discriminate.
  - split; [exact Hres | by rewrite Hsp].
Defined.

(** C6.  Whenever a call returns a result, [success] is true exactly when
    the last child spawned exited with status zero.  For a supported
    language there is such a child: the run step when it happens, else the
    compiler; and a compiler that exits with a non-zero status gives
    [success = false]. *)
Theorem success_iff_final_exit_zero host payload w r :
  result_of (execute host payload w) = Return r →
  let t := events_of (execute host payload w) in
  (success r = true ↔
   ∃ p, final_process t = Some (Exited p) ∧ returncode p = 0)
  ∧ (supported payload → ∃ p, final_process t = Some (Exited p))
  ∧ (compiled payload →
     ∀ sp p, head (spawns t) = Some sp → sp_end sp = Exited p →
             returncode p ≠ 0 → success r = false).
Proof.
  intros Hr t. subst t.
  destruct (decide (language_of payload = PyStr "python")) as [Hpy|Hpy];
    [|destruct (decide (language_of payload = PyStr "javascript")) as [Hjs|Hjs]];
    [| |destruct (decide (language_of payload = PyStr "c")) as [Hcl|Hcl]];
    [| | |destruct (decide (language_of payload = PyStr "cpp")) as [Hcp|Hcp]].
  5: {
    rewrite execute_unsupported in * by done.
    unfold result_of, events_of in *; cbn in *. injection Hr as <-. cbn.
    split; [split; [discriminate | by intros (p & [=] & _)]|].
    unfold supported, interpreted, compiled. split; [intros [[|]|[|]]; congruence|].
    intros [|]; congruence. }
  1,2: assert (interpreted payload) as Hi by (unfold interpreted; auto).
  3,4: assert (compiled payload) as Hc by (unfold compiled; auto).
  1,2: destruct (execute_interpreted_path host payload w Hi)
         as (interp & path & Hpath).
  3,4: destruct (execute_compiled_path host payload w Hc)
         as (compiler & src & _ & Hpath).
  all: revert Hr; unfold final_process; destruct Hpath; intros [= <-]; cbn;
    (split; [rewrite Z.eqb_eq || idtac;
             split; [intros ?; eauto; discriminate
                    |intros (p' & [= <-] & ?); congruence]|]);
    (split; [eauto|]); intros Hcomp sp p' [= <-]; cbn; intros [= <-] ?;
    first [done | congruence | by destruct (interpreted_not_compiled payload)].
Qed.

Lemma success_iff_final_exit_zero_witness :
  let t := events_of (execute bench (request_with_stdin "c" "echo" "hello") idle) in
  (true = true ↔ ∃ p, final_process t = Some (Exited p) ∧ returncode p = 0)
  ∧ ∃ p, final_process t = Some (Exited p).
Proof.
  destruct (success_iff_final_exit_zero bench
              (request_with_stdin "c" "echo" "hello") idle
              {| output := "hello"; error := ""; success := true |})
    as (Hiff & Hfinal & _).
  - reflexivity.
  - split; [exact Hiff|]. apply Hfinal. right. left. reflexivity.
Defined.

(** ** Operational parameters *)

(** Every child of a call runs under the limits of the worker and with
    the timeout of its pipeline. *)
Lemma spawn_parameters host payload w sp :
  supported payload →
  sp ∈ spawns (events_of (execute host payload w)) →
  sp_limits sp = service_limits
  ∧ (interpreted payload → sp_timeout sp = 25)
  ∧ (compiled payload → sp_timeout sp = 20).
Proof.
  intros [Hi|Hc] Hsp.
  - destruct (execute_interpreted_path host payload w Hi)
      as (interp & path & Hpath).
    pose proof (interpreted_not_compiled payload Hi) as Hnc.
    destruct Hpath; try (by apply elem_of_nil in Hsp);
      apply list_elem_of_singleton in Hsp as ->; by cbn.
  - destruct (execute_compiled_path host payload w Hc)
      as (compiler & src & _ & Hpath).
    assert (sp_limits sp = service_limits ∧ sp_timeout sp = 20) as [Hl Ht].
    { destruct Hpath; try (by apply elem_of_nil in Hsp);
        repeat (apply elem_of_cons in Hsp as [->|Hsp]);
        try (by apply elem_of_nil in Hsp); by cbn. }
    split; [exact Hl|]. split; [|done].
    intros Hi. by destruct (interpreted_not_compiled payload Hi).
Qed.

(** A call that could write its source file spawns at least one child. *)
Lemma spawns_nonempty host payload w s :
  supported payload →
  code_of payload = PyStr s →
  spawns (events_of (execute host payload w)) ≠ [].
Proof.
  intros [Hi|Hc] Hcode.
  - destruct (execute_interpreted_path host payload w Hi)
      as (interp & path & Hpath).
    rewrite Hcode in Hpath. by inversion Hpath.
  - destruct (execute_compiled_path host payload w Hc)
      as (compiler & src & _ & Hpath).
    rewrite Hcode in Hpath. by inversion Hpath.
Qed.

Lemma execute_limits_set host payload w :
  supported payload →
  limits_set (events_of (execute host payload w))
    = [(RLIMIT_CPU, (2, 2)); (RLIMIT_AS, (268435456, 268435456))].
Proof.
  intros [Hi|Hc].
  - destruct (execute_interpreted host payload Hi) as (suffix & interp & ->).
    apply run_interpreted_limits_set.
  - destruct (execute_compiled host payload Hc) as (suffix & compiler & _ & ->).
    apply run_compiled_limits_set.
Qed.

(** C7.  For every supported language the call sets the CPU limit to
    (2, 2), soft and hard alike, and the address-space limit to
    268435456 bytes = 256 MiB, and sets nothing else; every child runs
    under exactly these limits; every child of the python and javascript
    pipelines has a timeout of 25 seconds, and every child of the c and cpp
    pipelines, compiler and program alike, a timeout of 20 seconds. *)
Theorem operational_parameters host payload w :
  supported payload →
  let t := events_of (execute host payload w) in
  limits_set t = [(RLIMIT_CPU, (2, 2)); (RLIMIT_AS, (268435456, 268435456))]
  ∧ 268435456 = 256 * 1024 * 1024
  ∧ (∀ sp, sp ∈ spawns t →
       sp_limits sp = {| rlimit_cpu := (2, 2);
                         rlimit_as := (268435456, 268435456) |}
       ∧ (interpreted payload → sp_timeout sp = 25)
       ∧ (compiled payload → sp_timeout sp = 20))
  ∧ (∀ s, code_of payload = PyStr s → spawns t ≠ []).
Proof.
  intros Hs t. subst t.
  split; [by apply execute_limits_set|]. split; [reflexivity|].
  split; [intros sp; by apply spawn_parameters|].
  intros s. by apply spawns_nonempty.
Qed.

Lemma operational_parameters_witness :
  let t := events_of (execute bench (request_with_stdin "cpp" "echo" "hello") idle) in
  limits_set t = [(RLIMIT_CPU, (2, 2)); (RLIMIT_AS, (268435456, 268435456))]
  ∧ sp_timeout <$> spawns t = [20; 20].
Proof.
  destruct (operational_parameters bench
              (request_with_stdin "cpp" "echo" "hello") idle) as (Hset & _).
  - right. right. reflexivity.
  - split; [exact Hset | reflexivity].
Defined.

(** C8 fails on any run.  A worker that starts with no limits of its own
    ends the call under the limits meant for the child. *)
Lemma limits_reach_the_worker :
  let after := world_of (execute bench (request "python" "print('hi')") idle) in
  limits idle = unlimited
  ∧ limits after = service_limits
  ∧ limits after ≠ limits idle.
Proof. repeat split. discriminate. Qed.

(** C8, as the code has it.  [set_resource_limits] acts on the worker
    process: after a call for a supported language, however it ends, the
    worker's own limits are CPU (2, 2) and address space 268435456, whatever
    they were before; the two [setrlimit] calls are the first thing the
    call does, and every child inherits the worker's limits. *)
Theorem limits_are_process_wide host payload w :
  supported payload →
  let x := execute host payload w in
  limits (world_of x) = service_limits
  ∧ (∃ rest, events_of x = limit_events ++ rest)
  ∧ (∀ sp, sp ∈ spawns (events_of x) → sp_limits sp = limits (world_of x)).
Proof.
  intros Hs x. subst x.
  assert (limits (world_of (execute host payload w)) = service_limits) as Hl.
  { destruct Hs as [Hi|Hc].
    - destruct (execute_interpreted host payload Hi) as (suffix & interp & ->).
      apply run_interpreted_limits.
    - destruct (execute_compiled host payload Hc) as (suffix & compiler & _ & ->).
      apply run_compiled_limits. }
  split; [exact Hl|]. split.
  - destruct Hs as [Hi|Hc].
    + destruct (execute_interpreted host payload Hi) as (suffix & interp & ->).
      destruct (code_of payload) as [|s].
      * rewrite run_interpreted_None. by eexists.
      * destruct (run_interpreted_events host suffix interp s (stdin_of payload) w)
          as (e & ->). by eexists.
    + destruct (execute_compiled host payload Hc) as (suffix & compiler & _ & ->).
      destruct (code_of payload) as [|s].
      * rewrite run_compiled_None. by eexists.
      * destruct (run_compiled_events host suffix compiler s (stdin_of payload) w)
          as (e & children & fs & ->). by eexists.
  - intros sp Hsp. rewrite Hl.
    by destruct (spawn_parameters host payload w sp Hs Hsp) as [-> _].
Qed.

Lemma limits_are_process_wide_witness :
  limits idle = unlimited
  ∧ limits (world_of (execute bench (request "python" "print('hi')") idle))
      = service_limits.
Proof.
  split; [reflexivity|].
  apply (limits_are_process_wide bench (request "python" "print('hi')") idle).
  left. left. reflexivity.
Defined.

(** ** Standard input *)

(** The input a child is given, read off the payload. *)
Lemma input_of_stdin payload :
  input_of (stdin_of payload) =
    match payload !! "stdin" with
    | Some (PyStr s) => if decide (s = "") then None else Some s
    | _ => None
    end.
Proof.
  unfold stdin_of, get. destruct (payload !! "stdin") as [[|s]|]; try done.
  cbn. destruct (String.eqb_spec s ""); by case_decide.
Qed.

(** C9 fails on the empty string.  It is present under "stdin", and the
    run step is started with [input=None]. *)
Lemma empty_stdin_not_fed :
  let payload := request_with_stdin "python" "print('hi')" "" in
  payload !! "stdin" = Some (PyStr "")
  ∧ ∃ sp, spawns (events_of (execute bench payload idle)) = [sp]
          ∧ is_run_step sp = true
          ∧ sp_input sp = None
          ∧ sp_input sp ≠ Some "".
Proof.
  split; [reflexivity|]. eexists. split; [reflexivity|]. by repeat split.
Qed.

(** C9, as the code has it.  The input of a run step is the stdin string
    of the request when that string is not empty; when the key is absent,
    [null] or the empty string the run step is started with [input=None].
    The compiler is never given input. *)
Theorem nonempty_stdin_is_fed host payload w sp :
  supported payload →
  sp ∈ spawns (events_of (execute host payload w)) →
  sp_input sp =
    if is_run_step sp then
      match payload !! "stdin" with
      | Some (PyStr s) => if decide (s = "") then None else Some s
      | _ => None
      end
    else None.
Proof.
  intros [Hi|Hc] Hsp; rewrite <- input_of_stdin.
  - destruct (execute_interpreted_path host payload w Hi)
      as (interp & path & Hpath).
    destruct Hpath; try (by apply elem_of_nil in Hsp);
      by apply list_elem_of_singleton in Hsp as ->.
  - destruct (execute_compiled_path host payload w Hc)
      as (compiler & src & _ & Hpath).
    destruct Hpath; try (by apply elem_of_nil in Hsp);
      repeat (apply elem_of_cons in Hsp as [->|Hsp]);
      try (by apply elem_of_nil in Hsp); done.
Qed.

Lemma nonempty_stdin_is_fed_witness :
  sp_input <$> spawns (events_of
                 (execute bench (request_with_stdin "c" "echo" "hello") idle))
    = [None; Some "hello"]
  ∧ sp_input (run_of ["/tmp/tmpk3x9.c.out"] (Some "hello") 20
                (Exited {| stdout := "hello"; stderr := ""; returncode := 0 |}))
      = Some "hello".
Proof.
  split; [reflexivity|].
  apply (nonempty_stdin_is_fed bench (request_with_stdin "c" "echo" "hello") idle).
  - right. left. reflexivity.
  - vm_compute. right. left.
Defined.

(** ** Missing keys *)



(** * Further properties *)

(** ** truncate_output with any limit *)

Lemma len_append (a b : string) : len (a +:+ b) = len a + len b.
Proof.
  unfold len. induction a as [|c a IH]; [reflexivity|].
  change (String c a +:+ b) with (String c (a +:+ b)).
  cbn [String.length]. lia.
Qed.

Lemma str_int_nonempty (n : Z) : 1 ≤ len (str_int n).
Proof.
  assert (∀ d, d ≠ Decimal.Nil → 1 ≤ len (NilZero.string_of_uint d)) as Hd.
  { intros [] Hne; try done; unfold len; simpl String.length; lia. }
  unfold str_int. destruct n as [|p|p]; simpl.
  - by vm_compute.
  - apply Hd, DecimalPos.Unsigned.to_uint_nonnil.
  - unfold len; simpl String.length. lia.
Qed.

Lemma truncate_output_long (text : string) (max_len : Z) :
  max_len < len text →
  truncate_output text max_len
    = slice_to text max_len +:+ notice (str_int (len text - max_len)).
Proof.
  intros H. unfold truncate_output, notice.
  destruct (Z.gtb_spec (len text) max_len) as [_|?]; [done | lia].
Qed.

Lemma len_slice_to (text : string) (stop : Z) :
  len (slice_to text stop)
    = if stop <? 0 then Z.max 0 (len text + stop) else Z.min stop (len text).
Proof.
  unfold slice_to. pose proof (Nat2Z.is_nonneg (String.length text)) as Hn.
  fold (len text) in Hn.
  destruct (stop <? 0) eqn:E; unfold len in *; rewrite length_substring_0; lia.
Qed.

(** X1.  For every limit [max_len ≥ 0], not only the default one: a text
    of at most [max_len] characters is returned unchanged; a longer text
    becomes its first [max_len] characters followed by the notice, whose
    number reads as [len(text) - max_len].  With [max_len = 0] nothing of
    the text is kept. *)
Theorem truncate_output_any_limit (text : string) (max_len : Z) :
  0 ≤ max_len →
  (len text ≤ max_len → truncate_output text max_len = text)
  ∧ (max_len < len text →
     ∃ head count,
       truncate_output text max_len = head +:+ notice count
       ∧ len head = max_len
       ∧ String.prefix head text = true
       ∧ int_of_str count = Some (len text - max_len)).
Proof.
  intros Hmax. split; intros Hlen.
  - unfold truncate_output.
    destruct (Z.gtb_spec (len text) max_len) as [?|_]; [lia | reflexivity].
  - rewrite truncate_output_long by done.
    destruct (slice_to_prefix text max_len) as [Hl Hp]; [lia|].
    exists (slice_to text max_len), (str_int (len text - max_len)).
    auto using int_of_str_str_int.
Qed.

Lemma truncate_output_any_limit_witness :
  truncate_output "abc" 3 = "abc"
  ∧ ∃ head count,
      truncate_output "abc" 0 = head +:+ notice count
      ∧ len head = 0
      ∧ String.prefix head "abc" = true
      ∧ int_of_str count = Some (len "abc" - 0).
Proof.
  split.
  - apply (truncate_output_any_limit "abc" 3); [lia | vm_compute; discriminate].
  - apply (truncate_output_any_limit "abc" 0); [lia | reflexivity].
Defined.



(** X3.  A truncated text has exactly [max_len + 34] characters plus the
    digits of the number, so at least [max_len + 35]: a text that exceeds
    the limit by fewer than 35 characters comes back longer than it was. *)
Theorem truncate_output_length (text : string) (max_len : Z) :
  0 ≤ max_len →
  max_len < len text →
  len (truncate_output text max_len)
    = max_len + 34 + len (str_int (len text - max_len))
  ∧ max_len + 35 ≤ len (truncate_output text max_len)
  ∧ (len text < max_len + 35 → len text < len (truncate_output text max_len)).
Proof.
  intros Hmax Hlen.
  assert (len (truncate_output text max_len)
          = max_len + 34 + len (str_int (len text - max_len))) as Heq.
  { rewrite truncate_output_long by done. unfold notice.
    rewrite !len_append, len_slice_to.
    destruct (Z.ltb_spec max_len 0); [lia|].
    change (len newline) with 1. change (len "... (truncated, ") with 16.
    change (len " more characters)") with 17. lia. }
  pose proof (str_int_nonempty (len text - max_len)).
  split; [exact Heq|]. split; lia.
Qed.

Lemma truncate_output_length_witness :
  len long_text = 10003
  ∧ 10035 ≤ len (truncate_output long_text MAX_OUTPUT_LENGTH)
  ∧ len long_text < len (truncate_output long_text MAX_OUTPUT_LENGTH).
Proof.
  assert (len long_text = 10003) as Hl
    by (unfold long_text; rewrite len_filler; lia).
  destruct (truncate_output_length long_text MAX_OUTPUT_LENGTH)
    as (_ & Hmin & Hlonger).
  - unfold MAX_OUTPUT_LENGTH. lia.
  - unfold MAX_OUTPUT_LENGTH. lia.
  - unfold MAX_OUTPUT_LENGTH in *. split; [exact Hl|]. split; [exact Hmin|].
    apply Hlonger. lia.
Defined.

(** ** Cleanup and the disk *)


Section Restore.
Variable host : Host.



End Restore.




(** ** Dispatch, language by language *)

Section Languages.
Variable host : Host.





(** A payload names an interpreted language, a compiled one, or none. *)
Lemma language_cases payload :
  interpreted payload ∨ compiled payload
  ∨ (¬ supported payload
     ∧ ∀ w, execute host payload w =
         (Return {| output := "";
                    error := "Unsupported language: "
                               +:+ py_str (language_of payload);
                    success := false |}, w, [])).
Proof.
  unfold supported, interpreted, compiled.
  destruct (decide (language_of payload = PyStr "python")); [tauto|].
  destruct (decide (language_of payload = PyStr "javascript")); [tauto|].
  destruct (decide (language_of payload = PyStr "c")); [tauto|].
  destruct (decide (language_of payload = PyStr "cpp")); [tauto|].
  right. right. split; [tauto|]. intros w. by apply execute_unsupported.
Qed.




End Languages.



(** ** Exceptions *)





(** ** Order and number of the children *)

(** X9.  A python or javascript call starts at most one child; a c or cpp
    call at most two.  The run step of a compiled pipeline happens only
    after its compiler, spawned first and without input, has exited with
    status 0, and what it runs is the file the compiler was told to write
    with [-o]. *)
Theorem run_only_after_successful_compile host payload w :
  let sps := spawns (events_of (execute host payload w)) in
  (interpreted payload → (length sps ≤ 1)%nat)
  ∧ (compiled payload →
     (length sps ≤ 2)%nat
     ∧ ∀ sp, sp ∈ sps → is_run_step sp = true →
         ∃ build p exe,
           sps = [build; sp]
           ∧ sp_end build = Exited p ∧ returncode p = 0
           ∧ sp_input build = None
           ∧ last (sp_cmd build) = Some exe
           ∧ sp_cmd sp = [exe]).
Proof.
  intros sps. subst sps. split.
  - intros Hi.
    destruct (execute_interpreted_path host payload w Hi)
      as (interp & path & Hpath).
    destruct Hpath; cbn; lia.
  - intros Hc.
    destruct (execute_compiled_path host payload w Hc)
      as (compiler & src & _ & Hpath).
    destruct Hpath; (split; [cbn; lia|]); intros sp Hsp Hrun;
      try (by apply elem_of_nil in Hsp);
      repeat (apply elem_of_cons in Hsp as [->|Hsp]);
      try (by apply elem_of_nil in Hsp); try discriminate Hrun;
      by eexists _, _, _.
Qed.

Lemma run_only_after_successful_compile_witness :
  let sps := spawns (events_of
               (execute bench (request_with_stdin "c" "echo" "hello") idle)) in
  sp_cmd <$> sps
    = [["gcc"; "/tmp/tmpk3x9.c"; "-O2"; "-o"; "/tmp/tmpk3x9.c.out"];
       ["/tmp/tmpk3x9.c.out"]]
  ∧ (length sps ≤ 2)%nat.
Proof.
  split; [reflexivity|].
  apply (run_only_after_successful_compile bench
           (request_with_stdin "c" "echo" "hello") idle).
  left. reflexivity.
Defined.

(** X10.  The timeouts a call hands to [subprocess.run] add up to at most
    25 seconds for python and javascript and 40 seconds for c and cpp:
    always at least 5 seconds less than the timeout of the function that
    runs the pipeline (30 and 45 seconds). *)
Theorem wall_clock_budget_below_function_timeout host payload w :
  let budget := wall_clock_budget (events_of (execute host payload w)) in
  0 ≤ budget
  ∧ (language_of payload = PyStr "python" →
     budget ≤ 25 ∧ budget + 5 ≤ run_python_timeout)
  ∧ (language_of payload = PyStr "javascript" →
     budget ≤ 25 ∧ budget + 5 ≤ run_js_timeout)
  ∧ (language_of payload = PyStr "c" →
     budget ≤ 40 ∧ budget + 5 ≤ run_c_timeout)
  ∧ (language_of payload = PyStr "cpp" →
     budget ≤ 40 ∧ budget + 5 ≤ run_cpp_timeout).
Proof.
  intros budget. subst budget.
  unfold run_python_timeout, run_js_timeout, run_c_timeout, run_cpp_timeout,
    wall_clock_budget.
  destruct (language_cases host payload) as [Hi|[Hc|[Hn Hun]]].
  - destruct (execute_interpreted_path host payload w Hi)
      as (interp & path & Hpath).
    assert (0 ≤ foldr Z.add 0
                  (sp_timeout <$> spawns (events_of (execute host payload w)))
            ≤ 25) as Hb by (destruct Hpath; cbn; lia).
    split; [lia|].
    split; [intros _; lia|]. split; [intros _; lia|].
    split; intros Hl; destruct (interpreted_not_compiled payload Hi);
      unfold compiled; auto.
  - destruct (execute_compiled_path host payload w Hc)
      as (compiler & src & _ & Hpath).
    assert (0 ≤ foldr Z.add 0
                  (sp_timeout <$> spawns (events_of (execute host payload w)))
            ≤ 40) as Hb by (destruct Hpath; cbn; lia).
    split; [lia|].
    split; [|split; [|split; intros _; lia]];
      intros Hl; destruct (interpreted_not_compiled payload);
      unfold interpreted; auto.
  - rewrite Hun. cbn. split; [lia|].
    unfold supported, interpreted, compiled in Hn.
    repeat split; intros Hl; tauto.
Qed.

Lemma wall_clock_budget_below_function_timeout_witness :
  wall_clock_budget (events_of
    (execute bench (request_with_stdin "cpp" "echo" "hello") idle)) = 40
  ∧ 40 + 5 ≤ run_cpp_timeout.
Proof.
  split; [reflexivity|].
  destruct (wall_clock_budget_below_function_timeout bench
              (request_with_stdin "cpp" "echo" "hello") idle)
    as (_ & _ & _ & _ & Hcpp).
  apply Hcpp. reflexivity.
Defined.

(** ** Which streams reach the result *)

(** X11.  A result of a supported call carries only the streams of the
    last child.  Its [error] is that child's stderr, truncated.  Its
    [output] is that child's stdout, truncated on its own, with [success]
    read off that child's exit status, unless the last child is a compiler
    that failed, in which case [output] is empty.  So whatever a compiler
    that succeeds prints, warnings included, is dropped, and so is the
    stdout of a compiler that fails. *)
Theorem result_streams host payload w r :
  supported payload →
  result_of (execute host payload w) = Return r →
  let sps := spawns (events_of (execute host payload w)) in
  ∃ sp q,
    last sps = Some sp ∧ sp_end sp = Exited q
    ∧ error r = truncate_output (stderr q) MAX_OUTPUT_LENGTH
    ∧ ((is_run_step sp = true
        ∧ output r = truncate_output (stdout q) MAX_OUTPUT_LENGTH
        ∧ success r = (returncode q =? 0))
       ∨ (is_run_step sp = false ∧ compiled payload ∧ sps = [sp]
          ∧ returncode q ≠ 0 ∧ output r = "" ∧ success r = false)).
Proof.
  intros [Hi|Hc] Hr sps; subst sps.
  - destruct (execute_interpreted_path host payload w Hi)
      as (interp & path & Hpath).
    revert Hr. destruct Hpath; intros [= <-].
    eexists _, _. split; [reflexivity|]. split; [reflexivity|].
    split; [reflexivity|]. left. by repeat split.
  - destruct (execute_compiled_path host payload w Hc)
      as (compiler & src & _ & Hpath).
    revert Hr. destruct Hpath; intros [= <-];
      eexists _, _; (split; [reflexivity|]); (split; [reflexivity|]);
      (split; [reflexivity|]).
    + right. by repeat split.
    + left. by repeat split.
Qed.

Lemma result_streams_witness :
  let x := execute bench (request "cpp" "syntax error") idle in
  ∃ sp q,
    last (spawns (events_of x)) = Some sp ∧ sp_end sp = Exited q
    ∧ stderr q = "error: expected declaration"
    ∧ result_of x
        = Return {| output := ""; error := "error: expected declaration";
                    success := false |}.
Proof.
  destruct (result_streams bench (request "cpp" "syntax error") idle
              {| output := ""; error := "error: expected declaration";
                 success := false |}) as (sp & q & Hlast & Hend & Herr & _).
  - right. right. reflexivity.
  - reflexivity.
  - exists sp, q. split; [exact Hlast|]. split; [exact Hend|].
    split; [|reflexivity].
    vm_compute in Hlast. injection Hlast as <-.
    cbn in Hend. by injection Hend as <-.
Defined.

(** ** Which payloads start a pipeline *)

(** X12.  A pipeline is started exactly for the four identifiers, matched
    as whole, case-sensitive strings.  Any other value under "language"
    (another string, or [null], which is printed as [None]) gets the
    unsupported-language result and causes no operating-system call; a
    supported call always makes some, starting with the two [setrlimit]
    calls, even when it then fails. *)
Theorem pipeline_iff_supported host payload w :
  (supported payload ↔ events_of (execute host payload w) ≠ [])
  ∧ (supported payload →
     ∃ rest, events_of (execute host payload w) = limit_events ++ rest)
  ∧ (¬ supported payload →
     execute host payload w =
       (Return {| output := "";
                  error := "Unsupported language: "
                             +:+ py_str (language_of payload);
                  success := false |}, w, [])).
Proof.
  assert (supported payload →
          ∃ rest, events_of (execute host payload w) = limit_events ++ rest)
    as Hstart.
  { intros [Hi|Hc].
    - destruct (execute_interpreted host payload Hi) as (suffix & interp & ->).
      destruct (code_of payload) as [|s].
      + rewrite run_interpreted_None. by eexists.
      + destruct (run_interpreted_events host suffix interp s (stdin_of payload) w)
          as (e & ->). by eexists.
    - destruct (execute_compiled host payload Hc) as (suffix & compiler & _ & ->).
      destruct (code_of payload) as [|s].
      + rewrite run_compiled_None. by eexists.
      + destruct (run_compiled_events host suffix compiler s (stdin_of payload) w)
          as (e & children & fs & ->). by eexists. }
  split; [|split; [exact Hstart|]].
  - split.
    + intros (rest & ->)%Hstart. discriminate.
    + intros Hne.
      destruct (language_cases host payload) as [Hi|[Hc|[_ Hun]]];
        [by left | by right |].
      rewrite Hun in Hne. by destruct Hne.
  - intros Hn.
    destruct (language_cases host payload) as [Hi|[Hc|[_ Hun]]];
      [destruct Hn; by left | destruct Hn; by right | apply Hun].
Qed.

Lemma pipeline_iff_supported_witness :
  execute bench (<["language" := PyNone]> (request "python" "print('hi')")) idle
    = (Return {| output := ""; error := "Unsupported language: None";
                 success := false |}, idle, [])
  ∧ execute bench (request "Python" "print('hi')") idle
    = (Return {| output := ""; error := "Unsupported language: Python";
                 success := false |}, idle, []).
Proof.
  split.
  - destruct (pipeline_iff_supported bench
                (<["language" := PyNone]> (request "python" "print('hi')")) idle)
      as (_ & _ & Hun).
    apply Hun. intros [[H|H]|[H|H]]; discriminate H.
  - destruct (pipeline_iff_supported bench (request "Python" "print('hi')") idle)
      as (_ & _ & Hun).
    apply Hun. intros [[H|H]|[H|H]]; discriminate H.
Defined.
